(** * Dome master camera (Ray Tracing Gems, ch. 4): a shallow embedding

    Embedding of [camera_dome_general<STEREO_ON, DOF_ON>] of
    [dome_master_camera.cu].  Floating-point arithmetic is modelled by
    real arithmetic ([R]): [sincosf], [hypotf] and [powf] become [sin],
    [cos], [sqrt] and [pow].  Unsigned 32-bit integers are [Z] with their
    wrap-around written out.  The host primitives the kernel calls
    ([jitter_offset2f], [dof_ray], [rtTrace]) are parameters of a Section,
    so every theorem holds for every implementation of them. *)

From Stdlib Require Import ZArith Reals Lra Lia List.
Import ListNotations.

Open Scope R_scope.

(** ** Vectors ([float2], [float3]) *)

Record float2 := mkf2 { fx : R; fy : R }.
Record float3 := mkf3 { x3 : R; y3 : R; z3 : R }.

Definition f3add (a b : float3) : float3 :=
  mkf3 (x3 a + x3 b) (y3 a + y3 b) (z3 a + z3 b).
Definition f3scale (s : R) (a : float3) : float3 :=
  mkf3 (s * x3 a) (s * y3 a) (s * z3 a).
(** [v * s] as written in CUDA, scalar on the right *)
Definition f3muls (a : float3) (s : R) : float3 :=
  mkf3 (x3 a * s) (y3 a * s) (z3 a * s).
Definition f3neg (a : float3) : float3 := mkf3 (- x3 a) (- y3 a) (- z3 a).
Definition cross (a b : float3) : float3 :=
  mkf3 (y3 a * z3 b - z3 a * y3 b)
       (z3 a * x3 b - x3 a * z3 b)
       (x3 a * y3 b - y3 a * x3 b).
(** componentwise [powf(v, 5.0)] *)
Definition f3pow5 (a : float3) : float3 :=
  mkf3 (x3 a ^ 5) (y3 a ^ 5) (z3 a ^ 5).
Definition dot (a b : float3) : R := x3 a * x3 b + y3 a * y3 b + z3 a * z3 b.
Definition zero3 : float3 := mkf3 0 0 0.

(** [hypotf] *)
Definition hypotf (x y : R) : R := sqrt (x * x + y * y).

(** ** Unsigned 32-bit arithmetic and the [tea<N>] seed hash *)

Definition u32 (z : Z) : Z := Z.modulo z (2 ^ 32).

(** Modelled from the spec: [tea<4>] of [boilerplate.cuh], which is not
    under src/; the spec calls it a small integer hash with a 4-round mix.
    It is the TEA mix in the form of the OptiX SDK's random.h: the round
    loop updates both halves and the hash returns [v0]. *)
Fixpoint tea_rounds (n : nat) (v0 v1 s0 : Z) : Z :=
  match n with
  | O => v0
  | S n' =>
      let s0 := u32 (s0 + 0x9e3779b9) in
      let v0 := u32 (v0 + Z.lxor (Z.lxor (u32 (u32 (Z.shiftl v1 4) + 0xa341316c))
                                          (u32 (v1 + s0)))
                                 (u32 (Z.shiftr v1 5 + 0xc8013a4d))) in
      let v1 := u32 (v1 + Z.lxor (Z.lxor (u32 (u32 (Z.shiftl v0 4) + 0xad90777d))
                                          (u32 (v0 + s0)))
                                 (u32 (Z.shiftr v0 5 + 0x7e95761e))) in
      tea_rounds n' v0 v1 s0
  end.

Definition tea (N : nat) (val0 val1 : Z) : Z := tea_rounds N (u32 val0) (u32 val1) 0.

(** line 65: [tea<4>(launch_dim.x*(launch_index.y)+launch_index.x, subframe_count())] *)
Definition pixel_seed (dim_x idx_x idx_y subframe : Z) : Z :=
  tea 4 (u32 (dim_x * idx_y + idx_x)) subframe.

(** ** Host-provided state read by the ray generation program *)

Record host := mkHost {
  launch_dim_x : Z; launch_dim_y : Z;        (* [launch_dim] *)
  launch_index_x : Z; launch_index_y : Z;    (* [launch_index] *)
  cam_pos : float3;
  cam_U : float3; cam_V : float3; cam_W : float3;
  cam_stereo_eyesep : R;
  aa_samples : Z;                            (* [int] *)
  max_trans : Z;
  subframe_count : Z
}.

(** [PerRayData_radiance] *)
Record PerRayData_radiance := mkPRD {
  importance : R; prd_alpha : R; depth : Z; transcnt : Z; result : float3
}.

(** Observable effects of one invocation: the calls to [rtTrace] (with the
    ray's origin and direction) and to [accumulate_color]. *)
Inductive event :=
| Trace (origin direction : float3)
| Accumulate (col : float3) (alpha : R).

(** ** Constants of lines 49-53 *)

Definition fov : R := 180.
Definition rmax : R := 0.5 * fov * (PI / 180).

Section DomeCamera.

(** [jitter_offset2f(randseed, jxy)]: advances the seed, yields the jitter. *)
Variable jitter_offset2f : Z -> Z * float2.
(** [dof_ray(o, o, d, d, randseed, up, right)]: thin-lens perturbation;
    it may draw from and advance the seed. *)
Variable dof_ray : float3 -> float3 -> Z -> float3 -> float3 -> Z * float3 * float3.
(** [rtTrace(root_object, make_Ray(origin, direction, ...), prd)] *)
Variable rtTrace : float3 -> float3 -> PerRayData_radiance -> PerRayData_radiance.

(** lines 28-47: viewport height, local y index and eye shift *)
Definition viewport_setup (STEREO_ON : bool) (h : host) : Z * Z * R :=
  if STEREO_ON then
    let viewport_sz_y := Z.shiftr (launch_dim_y h) 1 in
    if Z.geb (launch_index_y h) viewport_sz_y then
      (* left image *)
      (viewport_sz_y, (launch_index_y h - viewport_sz_y)%Z, -0.5 * cam_stereo_eyesep h)
    else
      (* right image *)
      (viewport_sz_y, launch_index_y h, 0.5 * cam_stereo_eyesep h)
  else (launch_dim_y h, launch_index_y h, 0).

(** lines 61-63 and 73-76: radian-scaled offset [rd] of a jittered sample *)
Definition sample_rd (h : host) (viewport_sz_y viewport_idx_y : Z) (jxy : float2) : float2 :=
  let viewport_sz := mkf2 (IZR (launch_dim_x h)) (IZR viewport_sz_y) in
  let radperpix := mkf2 ((PI / 180) * fov / fx viewport_sz)
                        ((PI / 180) * fov / fy viewport_sz) in
  let viewport_mid := mkf2 (fx viewport_sz * 0.5) (fy viewport_sz * 0.5) in
  let viewport_idx := mkf2 (IZR (launch_index_x h) + fx jxy)
                           (IZR viewport_idx_y + fy jxy) in
  mkf2 ((fx viewport_idx - fx viewport_mid) * fx radperpix)
       ((fy viewport_idx - fy viewport_mid) * fy radperpix).

(** line 77 *)
Definition rangle_of (rd : float2) : R := hypotf (fx rd) (fy rd).

(** lines 90-96: ray, up and right directions off the dome center *)
Definition dome_dirs (U V W : float3) (rd : float2) : float3 * float3 * float3 :=
  let rangle := rangle_of rd in
  let rasin := sin rangle in
  let racos := cos rangle in
  let rsin := rasin / rangle in
  let rcos := racos / rangle in
  (f3add (f3add (f3muls (f3muls U rsin) (fx rd)) (f3muls (f3muls V rsin) (fy rd)))
         (f3muls W racos),
   f3add (f3add (f3muls (f3muls (f3neg U) rcos) (fx rd))
                (f3neg (f3muls (f3muls V rcos) (fy rd))))
         (f3muls W rasin),
   f3add (f3muls U (fy rd / rangle)) (f3muls V (- fx rd / rangle))).

(** lines 83-108: origin and direction of the ray of an in-FoV sample,
    with the seed after a possible [dof_ray] *)
Definition sample_ray (STEREO_ON DOF_ON : bool) (h : host) (eyeshift : R)
    (randseed : Z) (rd : float2) : Z * float3 * float3 :=
  let rangle := rangle_of rd in
  if Req_dec_T rangle 0 then (randseed, cam_pos h, cam_W h)
  else
    let '(ray_direction, up_direction, right_direction) :=
      dome_dirs (cam_U h) (cam_V h) (cam_W h) rd in
    let ray_origin :=
      if STEREO_ON
      then f3add (cam_pos h) (f3scale eyeshift (f3pow5 (cross ray_direction (cam_W h))))
      else cam_pos h in
    if DOF_ON then dof_ray ray_origin ray_direction randseed up_direction right_direction
    else (randseed, ray_origin, ray_direction).

(** State of the sample loop: [randseed], [col], [alpha] and the calls so far. *)
Definition loop_state : Type := (Z * float3 * R * list event)%type.

(** one iteration of the loop of lines 69-121; [prd.result] is not set by
    the kernel before [rtTrace], it is modelled as zero *)
Definition sample (STEREO_ON DOF_ON : bool) (h : host)
    (viewport_sz_y viewport_idx_y : Z) (eyeshift : R) (st : loop_state) : loop_state :=
  let '(randseed, col, alpha, log) := st in
  let '(randseed, jxy) := jitter_offset2f randseed in
  let rd := sample_rd h viewport_sz_y viewport_idx_y jxy in
  let rangle := rangle_of rd in
  if Rlt_dec rangle rmax then
    let '(randseed, ray_origin, ray_direction) :=
      sample_ray STEREO_ON DOF_ON h eyeshift randseed rd in
    let prd := mkPRD 1 1 0 (max_trans h) zero3 in
    let prd := rtTrace ray_origin ray_direction prd in
    (randseed, f3add col (result prd), alpha + prd_alpha prd,
     log ++ [Trace ray_origin ray_direction])
  else (randseed, col, alpha, log).

Fixpoint sample_loop (STEREO_ON DOF_ON : bool) (h : host)
    (viewport_sz_y viewport_idx_y : Z) (eyeshift : R) (n : nat) (st : loop_state)
    : loop_state :=
  match n with
  | O => st
  | S n' => sample_loop STEREO_ON DOF_ON h viewport_sz_y viewport_idx_y eyeshift n'
              (sample STEREO_ON DOF_ON h viewport_sz_y viewport_idx_y eyeshift st)
  end.

(** [camera_dome_general<STEREO_ON, DOF_ON>]: the calls it makes, in order *)
Definition camera_dome_general (STEREO_ON DOF_ON : bool) (h : host) : list event :=
  let '(viewport_sz_y, viewport_idx_y, eyeshift) := viewport_setup STEREO_ON h in
  let randseed := pixel_seed (launch_dim_x h) (launch_index_x h) (launch_index_y h)
                             (subframe_count h) in
  let '(_, col, alpha, log) :=
    sample_loop STEREO_ON DOF_ON h viewport_sz_y viewport_idx_y eyeshift
                (Z.to_nat (aa_samples h)) (randseed, zero3, 0, []) in
  log ++ [Accumulate col alpha].

Definition camera_dome_master := camera_dome_general false false.
Definition camera_dome_master_dof := camera_dome_general false true.
Definition camera_dome_master_stereo := camera_dome_general true false.
Definition camera_dome_master_stereo_dof := camera_dome_general true true.

(** seed before the k-th sample when only [jitter_offset2f] draws from it *)
Fixpoint jitter_seed_iter (k : nat) (seed : Z) : Z :=
  match k with
  | O => seed
  | S k' => jitter_seed_iter k' (fst (jitter_offset2f seed))
  end.

(** the rangle computed for the jitter drawn from [seed] *)
Definition drawn_rangle (h : host) (vsz vidx : Z) (seed : Z) : R :=
  rangle_of (sample_rd h vsz vidx (snd (jitter_offset2f seed))).

End DomeCamera.

(** [{ h with subframe_count := f }] *)
Definition set_subframe_count (h : host) (f : Z) : host :=
  mkHost (launch_dim_x h) (launch_dim_y h) (launch_index_x h) (launch_index_y h)
         (cam_pos h) (cam_U h) (cam_V h) (cam_W h) (cam_stereo_eyesep h)
         (aa_samples h) (max_trans h) f.

Definition is_trace (e : event) : Prop :=
  match e with Trace _ _ => True | Accumulate _ _ => False end.

Definition orthonormal (U V W : float3) : Prop :=
  dot U U = 1 /\ dot V V = 1 /\ dot W W = 1 /\
  dot U V = 0 /\ dot U W = 0 /\ dot V W = 0.

(** The worked example of the spec: FoV 180, a 2x2 viewport, pixel (0,0),
    forward (0,0,1), up (0,1,0), right (1,0,0), position the origin. *)
Definition example_host : host :=
  mkHost 2 2 0 0 (mkf3 0 0 0) (mkf3 1 0 0) (mkf3 0 1 0) (mkf3 0 0 1) 0 1 0 0.

(** A stereo frame of height 4, pixel (0,3) (upper half), eye separation 1. *)
Definition stereo_host : host :=
  mkHost 4 4 0 3 zero3 zero3 zero3 zero3 1 1 0 0.

(** A 2x2 frame, pixel (1,1): with zero jitter it sits on the optical center. *)
Definition center_host : host :=
  mkHost 2 2 1 1 (mkf3 0 0 0) (mkf3 1 0 0) (mkf3 0 1 0) (mkf3 0 0 1) 0 1 0 0.

(** Instances of the host primitives used for concrete runs. *)
Definition const_jitter (j : float2) : Z -> Z * float2 := fun s => (s, j).
Definition no_dof (o d : float3) (s : Z) (u r : float3) : Z * float3 * float3 := (s, o, d).
Definition opaque_trace (o d : float3) (prd : PerRayData_radiance) : PerRayData_radiance := prd.

(** [{ h with launch_index.y := y }] *)
Definition set_launch_index_y (h : host) (y : Z) : host :=
  mkHost (launch_dim_x h) (launch_dim_y h) (launch_index_x h) y
         (cam_pos h) (cam_U h) (cam_V h) (cam_W h) (cam_stereo_eyesep h)
         (aa_samples h) (max_trans h) (subframe_count h).

(** The colour and alpha sums of lines 118-119, folded over the traced rays,
    each traced with the fresh payload of lines 111-115. *)
Definition accumulated
    (rtTrace : float3 -> float3 -> PerRayData_radiance -> PerRayData_radiance)
    (h : host) (col : float3) (alpha : R) (log : list event) : float3 * R :=
  fold_left (fun acc ev =>
               match ev with
               | Trace o d =>
                   let prd := rtTrace o d (mkPRD 1 1 0 (max_trans h) zero3) in
                   (f3add (fst acc) (result prd), snd acc + prd_alpha prd)
               | Accumulate _ _ => acc
               end) log (col, alpha).

(** How many of the first [n] jitter draws from [seed] fall inside the FoV. *)
Fixpoint in_fov_count (jitter_offset2f : Z -> Z * float2) (h : host) (vsz vidx : Z)
    (n : nat) (seed : Z) : nat :=
  match n with
  | O => O
  | S n' =>
      ((if Rlt_dec (drawn_rangle jitter_offset2f h vsz vidx seed) rmax then 1 else 0)
       + in_fov_count jitter_offset2f h vsz vidx n' (fst (jitter_offset2f seed)))%nat
  end.

(** A traced ray whose direction is a unit vector pointing into the
    forward half-space of the camera. *)
Definition unit_forward (h : host) (ev : event) : Prop :=
  match ev with
  | Trace _ d => dot d d = 1 /\ 0 < dot d (cam_W h)
  | Accumulate _ _ => True
  end.

(** [a U + b V + c W] *)
Definition lin3 (U V W : float3) (a b c : R) : float3 :=
  f3add (f3add (f3scale a U) (f3scale b V)) (f3scale c W).

(** ** Auxiliary facts *)

Lemma half_eq : 0.5 = / 2.
Proof. unfold Q2R; simpl. field. Qed.

Lemma rmax_half_pi : rmax = PI / 2.
Proof. unfold rmax, fov. rewrite half_eq. field. Qed.

Lemma rmax_pos : 0 < rmax.
Proof. rewrite rmax_half_pi. generalize PI_RGT_0. lra. Qed.

Lemma sqrt_ge_iff (a b : R) : 0 <= a -> 0 < b -> (b <= sqrt a <-> b * b <= a).
Proof.
  intros Ha Hb; split; intro H.
  - destruct (Rle_or_lt (b * b) a) as [Hle | Hlt]; [exact Hle |].
    exfalso.
    assert (sqrt a < sqrt (b * b)) by (apply sqrt_lt_1_alt; lra).
    rewrite sqrt_square in H0 by lra. lra.
  - rewrite <- (sqrt_square b) by lra.
    apply sqrt_le_1_alt. lra.
Qed.

Lemma rangle_of_nonneg (rd : float2) : 0 <= rangle_of rd.
Proof. unfold rangle_of, hypotf. apply sqrt_pos. Qed.

Lemma dot_comm (a b : float3) : dot a b = dot b a.
Proof. unfold dot. ring. Qed.

Lemma example_rd (jx jy : R) :
  sample_rd example_host 2 0 (mkf2 jx jy) = mkf2 ((jx - 1) * (PI / 2)) ((jy - 1) * (PI / 2)).
Proof.
  unfold sample_rd, fov; simpl. rewrite half_eq.
  f_equal; field.
Qed.

Lemma example_excluded_iff (jx jy : R) :
  rmax <= rangle_of (sample_rd example_host 2 0 (mkf2 jx jy))
  <-> 1 <= (jx - 1) ^ 2 + (jy - 1) ^ 2.
Proof.
  rewrite example_rd, rmax_half_pi. unfold rangle_of, hypotf; simpl.
  assert (HP : 0 < PI / 2) by (generalize PI_RGT_0; lra).
  set (P := PI / 2) in *.
  rewrite sqrt_ge_iff; cycle 1.
  { pose proof (Rle_0_sqr ((jx - 1) * P)); pose proof (Rle_0_sqr ((jy - 1) * P)).
    unfold Rsqr in *; lra. }
  { exact HP. }
  replace ((jx - 1) * P * ((jx - 1) * P) + (jy - 1) * P * ((jy - 1) * P))
    with (P * P * ((jx - 1) * ((jx - 1) * 1) + (jy - 1) * ((jy - 1) * 1))) by ring.
  assert (HPP : 0 < P * P) by nra.
  split; intro H.
  - apply (Rmult_le_reg_l (P * P)); [exact HPP | lra].
  - rewrite <- (Rmult_1_r (P * P)) at 1. apply Rmult_le_compat_l; lra.
Qed.

Lemma viewport_setup_mono (h : host) :
  viewport_setup false h = (launch_dim_y h, launch_index_y h, 0).
Proof. reflexivity. Qed.

Lemma dot_dome_dir (U V W X : float3) (rd : float2) :
  dot (fst (fst (dome_dirs U V W rd))) X =
  sin (rangle_of rd) / rangle_of rd * fx rd * dot U X
  + sin (rangle_of rd) / rangle_of rd * fy rd * dot V X
  + cos (rangle_of rd) * dot W X.
Proof. unfold dome_dirs, dot; simpl. ring. Qed.

Lemma dome_dir_components (U V W : float3) (rd : float2) :
  orthonormal U V W ->
  dot (fst (fst (dome_dirs U V W rd))) W = cos (rangle_of rd) /\
  dot (fst (fst (dome_dirs U V W rd))) U = sin (rangle_of rd) / rangle_of rd * fx rd /\
  dot (fst (fst (dome_dirs U V W rd))) V = sin (rangle_of rd) / rangle_of rd * fy rd.
Proof.
  intros (HUU & HVV & HWW & HUV & HUW & HVW).
  rewrite !dot_dome_dir.
  rewrite (dot_comm V U), (dot_comm W U), (dot_comm W V).
  rewrite HUU, HVV, HWW, HUV, HUW, HVW. repeat split; ring.
Qed.

Lemma sin_over_pos (r : R) : 0 < r < rmax -> 0 < sin r / r.
Proof.
  intros [H0 H1]. rewrite rmax_half_pi in H1.
  assert (0 < sin r) by (apply sin_gt_0; lra).
  unfold Rdiv. apply Rmult_lt_0_compat; [lra | apply Rinv_0_lt_compat; lra].
Qed.

(** The [rd] of [sample_rd], written with the spec's words:
    (jittered position - viewport size / 2) * (pi/180) * fov / viewport size. *)
Lemma sample_rd_eq (h : host) (vsz vidx : Z) (jxy : float2) :
  sample_rd h vsz vidx jxy =
  mkf2 ((IZR (launch_index_x h) + fx jxy - IZR (launch_dim_x h) / 2)
        * ((PI / 180) * 180 / IZR (launch_dim_x h)))
       ((IZR vidx + fy jxy - IZR vsz / 2) * ((PI / 180) * 180 / IZR vsz)).
Proof. unfold sample_rd, fov. rewrite half_eq. reflexivity. Qed.

Lemma dot_lin3_l (U V W X : float3) (a b c : R) :
  dot (lin3 U V W a b c) X = a * dot U X + b * dot V X + c * dot W X.
Proof. unfold lin3, dot; simpl. ring. Qed.

Lemma dot_lin3 (U V W : float3) (a b c a' b' c' : R) :
  orthonormal U V W ->
  dot (lin3 U V W a b c) (lin3 U V W a' b' c') = a * a' + b * b' + c * c'.
Proof.
  intros (HUU & HVV & HWW & HUV & HUW & HVW).
  rewrite dot_lin3_l.
  rewrite (dot_comm U), (dot_comm V), (dot_comm W), !dot_lin3_l.
  rewrite (dot_comm V U), (dot_comm W U), (dot_comm W V).
  rewrite HUU, HVV, HWW, HUV, HUW, HVW. ring.
Qed.

Lemma dome_dirs_lin3 (U V W : float3) (rd : float2) :
  dome_dirs U V W rd =
  (lin3 U V W (sin (rangle_of rd) / rangle_of rd * fx rd)
              (sin (rangle_of rd) / rangle_of rd * fy rd) (cos (rangle_of rd)),
   lin3 U V W (- (cos (rangle_of rd) / rangle_of rd) * fx rd)
              (- (cos (rangle_of rd) / rangle_of rd * fy rd)) (sin (rangle_of rd)),
   lin3 U V W (fy rd / rangle_of rd) (- fx rd / rangle_of rd) 0).
Proof.
  unfold dome_dirs, lin3, f3add, f3scale, f3muls, f3neg; simpl.
  f_equal; [f_equal |]; f_equal; ring.
Qed.

Lemma rangle_sq (rd : float2) :
  rangle_of rd * rangle_of rd = fx rd * fx rd + fy rd * fy rd.
Proof.
  unfold rangle_of, hypotf. apply sqrt_sqrt.
  pose proof (Rle_0_sqr (fx rd)); pose proof (Rle_0_sqr (fy rd)).
  unfold Rsqr in *; lra.
Qed.

(** The three vectors of lines 94-96 form an orthonormal frame, and the
    lens "right" vector is orthogonal to the forward axis. *)
Lemma dome_frame (U V W : float3) (rd : float2) :
  orthonormal U V W -> 0 < rangle_of rd ->
  let '(d, up, rt) := dome_dirs U V W rd in
  dot d d = 1 /\ dot up up = 1 /\ dot rt rt = 1 /\
  dot d up = 0 /\ dot d rt = 0 /\ dot up rt = 0 /\ dot rt W = 0.
Proof.
  intros Ho Hr. rewrite dome_dirs_lin3.
  pose proof (rangle_sq rd) as Hr2.
  pose proof (sin2_cos2 (rangle_of rd)) as Hsc. unfold Rsqr in Hsc.
  set (r := rangle_of rd) in *. set (x := fx rd) in *. set (y := fy rd) in *.
  set (sn := sin r) in *. set (cs := cos r) in *.
  clearbody r x y sn cs.
  assert (Hrr : r * r <> 0) by nra.
  rewrite !dot_lin3 by exact Ho.
  repeat split.
  - replace (sn / r * x * (sn / r * x) + sn / r * y * (sn / r * y) + cs * cs)
      with (sn * sn * (x * x + y * y) / (r * r) + cs * cs) by (field; lra).
    rewrite <- Hr2. replace (sn * sn * (r * r) / (r * r)) with (sn * sn) by (field; lra). lra.
  - replace (- (cs / r) * x * (- (cs / r) * x) + - (cs / r * y) * - (cs / r * y) + sn * sn)
      with (cs * cs * (x * x + y * y) / (r * r) + sn * sn) by (field; lra).
    rewrite <- Hr2. replace (cs * cs * (r * r) / (r * r)) with (cs * cs) by (field; lra). lra.
  - replace (y / r * (y / r) + - x / r * (- x / r) + 0 * 0)
      with ((x * x + y * y) / (r * r)) by (field; lra).
    rewrite <- Hr2. field. lra.
  - replace (sn / r * x * (- (cs / r) * x) + sn / r * y * - (cs / r * y) + cs * sn)
      with (- (sn * cs) * (x * x + y * y) / (r * r) + cs * sn) by (field; lra).
    rewrite <- Hr2. field. lra.
  - field. lra.
  - field. lra.
  - destruct Ho as (HUU & HVV & HWW & HUV & HUW & HVW).
    rewrite dot_lin3_l, HUW, HVW, HWW. ring.
Qed.

Lemma neg_half_eq : -0.5 = - / 2.
Proof. unfold Q2R; simpl. field. Qed.

Lemma shiftr_double (H : Z) : (0 <= H)%Z -> Z.shiftr (2 * H) 1 = H.
Proof.
  intro HH. rewrite Z.shiftr_div_pow2 by lia. change (2 ^ 1)%Z with 2%Z.
  rewrite Z.mul_comm, Z.div_mul; lia.
Qed.

Lemma stereo_rows (h : host) (H y : Z) :
  (0 <= y < H)%Z -> launch_dim_y h = (2 * H)%Z ->
  viewport_setup true (set_launch_index_y h y) = (H, y, 0.5 * cam_stereo_eyesep h) /\
  viewport_setup true (set_launch_index_y h (y + H)) = (H, y, -0.5 * cam_stereo_eyesep h).
Proof.
  intros Hy Hdim. unfold viewport_setup; simpl. rewrite Hdim, shiftr_double by lia. split.
  - destruct (Z.geb_spec y H); [lia | reflexivity].
  - destruct (Z.geb_spec (y + H) H); [| lia].
    replace (y + H - H)%Z with y by lia. reflexivity.
Qed.

Lemma f3add_scale0 (a v : float3) : f3add a (f3scale 0 v) = a.
Proof. destruct a; unfold f3add, f3scale; simpl. f_equal; ring. Qed.

Section Proofs.

Variable jitter_offset2f : Z -> Z * float2.
Variable dof_ray : float3 -> float3 -> Z -> float3 -> float3 -> Z * float3 * float3.
Variable rtTrace : float3 -> float3 -> PerRayData_radiance -> PerRayData_radiance.

Local Abbreviation sample_ := (sample jitter_offset2f dof_ray rtTrace).
Local Abbreviation sample_loop_ := (sample_loop jitter_offset2f dof_ray rtTrace).
Local Abbreviation kernel := (camera_dome_general jitter_offset2f dof_ray rtTrace).
Local Abbreviation seed_iter := (jitter_seed_iter jitter_offset2f).
Local Abbreviation drawn_rangle_ := (drawn_rangle jitter_offset2f).

Lemma sample_outside (S D : bool) h vsz vidx e seed col alpha log :
  rmax <= drawn_rangle_ h vsz vidx seed ->
  sample_ S D h vsz vidx e (seed, col, alpha, log)
  = (fst (jitter_offset2f seed), col, alpha, log).
Proof.
  unfold drawn_rangle, sample; intro H.
  destruct (jitter_offset2f seed) as [seed' jxy]; simpl in *.
  destruct (Rlt_dec _ _) as [Hlt | _]; [lra | reflexivity].
Qed.

Lemma sample_seed_nodof (S : bool) h vsz vidx e seed col alpha log :
  fst (fst (fst (sample_ S false h vsz vidx e (seed, col, alpha, log))))
  = fst (jitter_offset2f seed).
Proof.
  unfold sample.
  destruct (jitter_offset2f seed) as [seed' jxy]; simpl.
  destruct (Rlt_dec _ _); [| reflexivity].
  unfold sample_ray.
  destruct (Req_dec_T _ _); [reflexivity |].
  destruct (dome_dirs _ _ _ _) as [[d u] rt]. reflexivity.
Qed.

Lemma sample_log (S D : bool) h vsz vidx e st :
  exists l, snd (sample_ S D h vsz vidx e st) = snd st ++ l /\ Forall is_trace l.
Proof.
  destruct st as [[[seed col] alpha] log]. unfold sample.
  destruct (jitter_offset2f seed) as [seed' jxy].
  destruct (Rlt_dec _ _).
  - destruct (sample_ray _ _ _ _ _ _) as [[sd o] d].
    exists [Trace o d]. split; [reflexivity | repeat constructor].
  - exists []. split; [symmetry; apply app_nil_r | constructor].
Qed.

Lemma sample_loop_log (S D : bool) h vsz vidx e n st :
  exists l, snd (sample_loop_ S D h vsz vidx e n st) = snd st ++ l /\ Forall is_trace l.
Proof.
  revert st; induction n as [| n IH]; intro st; cbn [sample_loop].
  - exists []. split; [symmetry; apply app_nil_r | constructor].
  - destruct (sample_log S D h vsz vidx e st) as (l1 & E1 & F1).
    destruct (IH (sample_ S D h vsz vidx e st)) as (l2 & E2 & F2).
    exists (l1 ++ l2). rewrite E2, E1, app_assoc.
    split; [reflexivity | apply Forall_app; auto].
Qed.

Lemma sample_loop_outside (S D : bool) h vsz vidx e n seed col alpha log :
  (forall k, (k < n)%nat -> rmax <= drawn_rangle_ h vsz vidx (seed_iter k seed)) ->
  sample_loop_ S D h vsz vidx e n (seed, col, alpha, log) = (seed_iter n seed, col, alpha, log).
Proof.
  revert seed; induction n as [| n IH]; intros seed H; cbn [sample_loop]; [reflexivity |].
  rewrite sample_outside by (apply (H 0%nat); lia).
  apply IH. intros k Hk. apply (H (Datatypes.S k)). lia.
Qed.

Lemma sample_loop_seed_nodof (S : bool) h vsz vidx e n seed col alpha log :
  fst (fst (fst (sample_loop_ S false h vsz vidx e n (seed, col, alpha, log))))
  = seed_iter n seed.
Proof.
  revert seed col alpha log; induction n as [| n IH]; intros seed col alpha log;
    cbn [sample_loop]; [reflexivity |].
  pose proof (sample_seed_nodof S h vsz vidx e seed col alpha log) as Hs.
  destruct (sample_ S false h vsz vidx e (seed, col, alpha, log)) as [[[s c] a] l].
  simpl in Hs. subst s. apply IH.
Qed.

Lemma sample_loop_snoc (S D : bool) h vsz vidx e n st :
  sample_loop_ S D h vsz vidx e (Datatypes.S n) st
  = sample_ S D h vsz vidx e (sample_loop_ S D h vsz vidx e n st).
Proof.
  revert st; induction n as [| n IH]; intro st; [reflexivity |].
  change (sample_loop_ S D h vsz vidx e (Datatypes.S (Datatypes.S n)) st)
    with (sample_loop_ S D h vsz vidx e (Datatypes.S n) (sample_ S D h vsz vidx e st)).
  rewrite IH. reflexivity.
Qed.

Definition origin_is_cam_pos (h : host) (e : event) : Prop :=
  match e with Trace o _ => o = cam_pos h | Accumulate _ _ => True end.

Lemma sample_mono_origin h vsz vidx e st :
  Forall (origin_is_cam_pos h) (snd st) ->
  Forall (origin_is_cam_pos h) (snd (sample_ false false h vsz vidx e st)).
Proof.
  destruct st as [[[seed col] alpha] log]; simpl; intro F. unfold sample.
  destruct (jitter_offset2f seed) as [seed' jxy].
  destruct (Rlt_dec _ _); [| exact F].
  unfold sample_ray.
  destruct (Req_dec_T _ _).
  - simpl. apply Forall_app; split; [exact F | repeat constructor].
  - destruct (dome_dirs _ _ _ _) as [[d u] rt]. simpl.
    apply Forall_app; split; [exact F | repeat constructor].
Qed.

Lemma sample_loop_mono_origin h vsz vidx e n st :
  Forall (origin_is_cam_pos h) (snd st) ->
  Forall (origin_is_cam_pos h) (snd (sample_loop_ false false h vsz vidx e n st)).
Proof.
  revert st; induction n as [| n IH]; intros st F; cbn [sample_loop]; [exact F |].
  apply IH, sample_mono_origin, F.
Qed.

Lemma sample_set_subframe (S D : bool) h f vsz vidx e st :
  sample_ S D (set_subframe_count h f) vsz vidx e st = sample_ S D h vsz vidx e st.
Proof. destruct h; reflexivity. Qed.

Lemma sample_loop_set_subframe (S D : bool) h f vsz vidx e n st :
  sample_loop_ S D (set_subframe_count h f) vsz vidx e n st
  = sample_loop_ S D h vsz vidx e n st.
Proof.
  revert st; induction n as [| n IH]; intro st; cbn [sample_loop]; [reflexivity |].
  rewrite sample_set_subframe. apply IH.
Qed.

(** C2: a sample whose rangle is at least rmax (= pi/2) leaves the colour
    and alpha accumulators (and the calls made) unchanged, in every
    stereo/DOF variant. *)
Theorem sample_outside_fov_contributes_nothing (S D : bool) h vsz vidx e seed col alpha log :
  rmax <= drawn_rangle_ h vsz vidx seed ->
  rmax = PI / 2 /\
  sample_ S D h vsz vidx e (seed, col, alpha, log) = (fst (jitter_offset2f seed), col, alpha, log).
Proof.
  intro H. split; [exact rmax_half_pi | exact (sample_outside S D h vsz vidx e seed col alpha log H)].
Qed.

(** C4: a sample with rangle exactly 0 traces the ray from [cam_pos] along
    [cam_W], in every stereo/DOF variant: no eye shift and no [dof_ray]
    (the seed is advanced by the jitter draw only). *)
Theorem sample_center_forward (S D : bool) h vsz vidx e seed col alpha log :
  drawn_rangle_ h vsz vidx seed = 0 ->
  sample_ S D h vsz vidx e (seed, col, alpha, log) =
  (let prd := rtTrace (cam_pos h) (cam_W h) (mkPRD 1 1 0 (max_trans h) zero3) in
   (fst (jitter_offset2f seed), f3add col (result prd), alpha + prd_alpha prd,
    log ++ [Trace (cam_pos h) (cam_W h)])).
Proof.
  unfold drawn_rangle, sample; intro H.
  destruct (jitter_offset2f seed) as [seed' jxy]; simpl in *.
  destruct (Rlt_dec _ _) as [_ | Hn]; [| exfalso; generalize rmax_pos; lra].
  unfold sample_ray.
  destruct (Req_dec_T _ _) as [_ | Hn]; [reflexivity | contradiction].
Qed.

(** C5: off the dome center and inside the FoV, the direction computed at
    line 94 is the equidistant fisheye direction
    U sin(r) rd.x / r + V sin(r) rd.y / r + W cos(r), with
    rd = (jittered position - viewport_mid) * (pi/180) * fov / viewport size
    and r = |rd|; with DOF off this is the direction of the traced ray. *)
Theorem sample_fisheye_direction (S : bool) h vsz vidx e seed col alpha log seed' jxy :
  jitter_offset2f seed = (seed', jxy) ->
  let rdx := (IZR (launch_index_x h) + fx jxy - IZR (launch_dim_x h) / 2)
             * ((PI / 180) * 180 / IZR (launch_dim_x h)) in
  let rdy := (IZR vidx + fy jxy - IZR vsz / 2) * ((PI / 180) * 180 / IZR vsz) in
  let r := sqrt (rdx * rdx + rdy * rdy) in
  let dir := f3add (f3add (f3scale (sin r * rdx / r) (cam_U h))
                          (f3scale (sin r * rdy / r) (cam_V h)))
                   (f3scale (cos r) (cam_W h)) in
  0 < r -> r < rmax ->
  fst (fst (dome_dirs (cam_U h) (cam_V h) (cam_W h) (sample_rd h vsz vidx jxy))) = dir /\
  exists col' alpha' o,
    sample_ S false h vsz vidx e (seed, col, alpha, log)
    = (seed', col', alpha', log ++ [Trace o dir]).
Proof.
  intros Ej rdx rdy r dir Hr0 Hr1.
  assert (Hdir : fst (fst (dome_dirs (cam_U h) (cam_V h) (cam_W h) (sample_rd h vsz vidx jxy)))
                 = dir).
  { rewrite sample_rd_eq. unfold dome_dirs, dir, rangle_of, hypotf; simpl.
    fold rdx rdy r. unfold f3add, f3muls, f3scale; simpl.
    f_equal; field; lra. }
  split; [exact Hdir |].
  unfold sample. rewrite Ej.
  assert (Hr : rangle_of (sample_rd h vsz vidx jxy) = r).
  { rewrite sample_rd_eq. reflexivity. }
  rewrite Hr.
  destruct (Rlt_dec r rmax) as [_ | Hn]; [| contradiction].
  unfold sample_ray. rewrite Hr.
  destruct (Req_dec_T r 0) as [Heq | _]; [lra |].
  destruct (dome_dirs _ _ _ _) as [[d u] rt] eqn:Ed.
  simpl in Hdir. subst d.
  eexists _, _, _. reflexivity.
Qed.

(** C7: with stereo and DOF both off, every traced ray starts at [cam_pos]. *)
Theorem mono_origin_is_cam_pos (h : host) :
  Forall (fun ev => match ev with Trace o _ => o = cam_pos h | Accumulate _ _ => True end)
         (camera_dome_master jitter_offset2f dof_ray rtTrace h).
Proof.
  change (Forall (origin_is_cam_pos h) (kernel false false h)).
  unfold camera_dome_general. rewrite viewport_setup_mono.
  pose proof (sample_loop_mono_origin h (launch_dim_y h) (launch_index_y h) 0
                (Z.to_nat (aa_samples h))
                (pixel_seed (launch_dim_x h) (launch_index_x h) (launch_index_y h)
                            (subframe_count h), zero3, 0, []) ltac:(constructor)) as F.
  destruct (sample_loop_ _ _ _ _ _ _ _ _) as [[[sd col] alpha] log].
  simpl in F. apply Forall_app; split; [exact F | repeat constructor].
Qed.

(** C8 (amended): the frame counter enters an invocation only through the
    seed [tea<4>((launch_dim.x * launch_index.y + launch_index.x) mod 2^32,
    subframe_count)]: two counters giving the same seed give the same
    invocation, calls and accumulated values alike. *)
Theorem kernel_depends_on_counter_via_seed (S D : bool) (h : host) (f : Z) :
  pixel_seed (launch_dim_x h) (launch_index_x h) (launch_index_y h) f
  = pixel_seed (launch_dim_x h) (launch_index_x h) (launch_index_y h) (subframe_count h) ->
  kernel S D (set_subframe_count h f) = kernel S D h.
Proof.
  intro Hs. unfold camera_dome_general.
  change (viewport_setup S (set_subframe_count h f)) with (viewport_setup S h).
  change (aa_samples (set_subframe_count h f)) with (aa_samples h).
  change (pixel_seed (launch_dim_x (set_subframe_count h f))
            (launch_index_x (set_subframe_count h f))
            (launch_index_y (set_subframe_count h f))
            (subframe_count (set_subframe_count h f)))
    with (pixel_seed (launch_dim_x h) (launch_index_x h) (launch_index_y h) f).
  rewrite Hs.
  destruct (viewport_setup S h) as [[vsz vidx] e].
  rewrite sample_loop_set_subframe. reflexivity.
Qed.

(** C9: every invocation ends with exactly one call of [accumulate_color],
    after all [rtTrace] calls; when every sample is outside the FoV, that
    call is the only one and accumulates zero colour and zero alpha. *)
Theorem kernel_accumulates_once (S D : bool) (h : host) :
  (exists traces col alpha,
     kernel S D h = traces ++ [Accumulate col alpha] /\ Forall is_trace traces) /\
  ((forall k, (k < Z.to_nat (aa_samples h))%nat ->
      rmax <= drawn_rangle_ h (fst (fst (viewport_setup S h))) (snd (fst (viewport_setup S h)))
                (seed_iter k (pixel_seed (launch_dim_x h) (launch_index_x h)
                                         (launch_index_y h) (subframe_count h)))) ->
   kernel S D h = [Accumulate zero3 0]).
Proof.
  unfold camera_dome_general.
  destruct (viewport_setup S h) as [[vsz vidx] e]; simpl.
  set (seed0 := pixel_seed (launch_dim_x h) (launch_index_x h) (launch_index_y h)
                           (subframe_count h)).
  split.
  - destruct (sample_loop_log S D h vsz vidx e (Z.to_nat (aa_samples h)) (seed0, zero3, 0, []))
      as (l & El & Fl).
    destruct (sample_loop_ _ _ _ _ _ _ _ _) as [[[sd col] alpha] log].
    simpl in El. subst log.
    exists l, col, alpha. split; [reflexivity | exact Fl].
  - intro Hout. rewrite sample_loop_outside by exact Hout. reflexivity.
Qed.

(** C10: with DOF off, the seed before sample number k is the initial seed
    advanced k times by [jitter_offset2f], whichever earlier samples were
    inside the FoV; so sample k draws its jitter from
    [jitter_offset2f (jitter_seed_iter k seed)]. *)
Theorem nodof_jitter_sequence (S : bool) h vsz vidx e k seed col alpha log :
  exists c a l,
    sample_loop jitter_offset2f dof_ray rtTrace S false h vsz vidx e k (seed, col, alpha, log)
    = (jitter_seed_iter jitter_offset2f k seed, c, a, l) /\
    sample_loop jitter_offset2f dof_ray rtTrace S false h vsz vidx e (Datatypes.S k)
      (seed, col, alpha, log)
    = sample jitter_offset2f dof_ray rtTrace S false h vsz vidx e
        (jitter_seed_iter jitter_offset2f k seed, c, a, l).
Proof.
  pose proof (sample_loop_seed_nodof S h vsz vidx e k seed col alpha log) as Hs.
  rewrite sample_loop_snoc.
  destruct (sample_loop_ S false h vsz vidx e k (seed, col, alpha, log)) as [[[sd c] a] l].
  simpl in Hs. subst sd. exists c, a, l. split; reflexivity.
Qed.

(** *** Further properties of the kernel *)

Lemma sample_accumulated (S D : bool) h vsz vidx e seed col alpha log :
  exists l,
    snd (sample_ S D h vsz vidx e (seed, col, alpha, log)) = log ++ l /\
    (snd (fst (fst (sample_ S D h vsz vidx e (seed, col, alpha, log)))),
     snd (fst (sample_ S D h vsz vidx e (seed, col, alpha, log))))
    = accumulated rtTrace h col alpha l.
Proof.
  unfold sample. destruct (jitter_offset2f seed) as [seed' jxy].
  destruct (Rlt_dec _ _).
  - destruct (sample_ray _ _ _ _ _ _ _) as [[sd o] d].
    exists [Trace o d]. split; reflexivity.
  - exists []. split; [symmetry; apply app_nil_r | reflexivity].
Qed.

Lemma sample_loop_accumulated (S D : bool) h vsz vidx e n seed col alpha log :
  exists l,
    snd (sample_loop_ S D h vsz vidx e n (seed, col, alpha, log)) = log ++ l /\
    (snd (fst (fst (sample_loop_ S D h vsz vidx e n (seed, col, alpha, log)))),
     snd (fst (sample_loop_ S D h vsz vidx e n (seed, col, alpha, log))))
    = accumulated rtTrace h col alpha l.
Proof.
  revert seed col alpha log; induction n as [| n IH]; intros seed col alpha log;
    cbn [sample_loop].
  - exists []. split; [symmetry; apply app_nil_r | reflexivity].
  - destruct (sample_accumulated S D h vsz vidx e seed col alpha log) as (l1 & E1 & A1).
    destruct (sample_ S D h vsz vidx e (seed, col, alpha, log)) as [[[s1 c1] a1] l1'].
    simpl in E1, A1. subst l1'.
    destruct (IH s1 c1 a1 (log ++ l1)) as (l2 & E2 & A2).
    exists (l1 ++ l2). rewrite E2, app_assoc. split; [reflexivity |].
    rewrite A2. unfold accumulated. rewrite fold_left_app.
    unfold accumulated in A1. rewrite <- A1. reflexivity.
Qed.

(** X: the colour and alpha passed to [accumulate_color] are the sums, over
    the rays traced in order, of the [result] and [alpha] that [rtTrace]
    returns for a fresh payload (importance 1, alpha 1, depth 0,
    transcnt = max_trans), starting from zero. *)
Theorem kernel_accumulates_trace_sums (S D : bool) (h : host) :
  exists traces col alpha,
    kernel S D h = traces ++ [Accumulate col alpha] /\
    (col, alpha) = accumulated rtTrace h zero3 0 traces.
Proof.
  unfold camera_dome_general.
  destruct (viewport_setup S h) as [[vsz vidx] e].
  destruct (sample_loop_accumulated S D h vsz vidx e (Z.to_nat (aa_samples h))
              (pixel_seed (launch_dim_x h) (launch_index_x h) (launch_index_y h)
                          (subframe_count h)) zero3 0 []) as (l & El & Al).
  destruct (sample_loop_ _ _ _ _ _ _ _ _) as [[[sd col] alpha] log].
  simpl in El, Al. subst log.
  exists l, col, alpha. split; [reflexivity | exact Al].
Qed.

(** X: with a non-positive sample count the loop body never runs: the
    invocation traces nothing and accumulates zero colour and zero alpha. *)
Theorem kernel_no_samples (S D : bool) (h : host) :
  (aa_samples h <= 0)%Z -> kernel S D h = [Accumulate zero3 0].
Proof.
  intro Ha. unfold camera_dome_general.
  assert (Hn : Z.to_nat (aa_samples h) = 0%nat).
  { destruct (aa_samples h); [reflexivity | lia | reflexivity]. }
  rewrite Hn. destruct (viewport_setup S h) as [[vsz vidx] e]. reflexivity.
Qed.

Lemma sample_length_le (S D : bool) h vsz vidx e st :
  (length (snd (sample_ S D h vsz vidx e st)) <= length (snd st) + 1)%nat.
Proof.
  destruct st as [[[seed col] alpha] log].
  unfold sample. destruct (jitter_offset2f seed) as [seed' jxy].
  destruct (Rlt_dec _ _).
  - destruct (sample_ray _ _ _ _ _ _ _) as [[sd o] d]. simpl. rewrite length_app. simpl. lia.
  - simpl. lia.
Qed.

Lemma sample_loop_length_le (S D : bool) h vsz vidx e n st :
  (length (snd (sample_loop_ S D h vsz vidx e n st)) <= length (snd st) + n)%nat.
Proof.
  revert st; induction n as [| n IH]; intro st; cbn [sample_loop]; [lia |].
  specialize (IH (sample_ S D h vsz vidx e st)).
  pose proof (sample_length_le S D h vsz vidx e st). lia.
Qed.

(** X: an invocation makes at most [aa_samples] calls of [rtTrace]: its
    calls number at most [aa_samples] + 1 (the last one being the
    accumulation), in every variant. *)
Theorem kernel_trace_count_le (S D : bool) (h : host) :
  (length (kernel S D h) <= Z.to_nat (aa_samples h) + 1)%nat.
Proof.
  unfold camera_dome_general.
  destruct (viewport_setup S h) as [[vsz vidx] e].
  pose proof (sample_loop_length_le S D h vsz vidx e (Z.to_nat (aa_samples h))
                (pixel_seed (launch_dim_x h) (launch_index_x h) (launch_index_y h)
                            (subframe_count h), zero3, 0, [])) as L.
  destruct (sample_loop_ _ _ _ _ _ _ _ _) as [[[sd col] alpha] log].
  simpl in L. rewrite length_app. simpl. lia.
Qed.

Lemma sample_length_nodof (S : bool) h vsz vidx e seed col alpha log :
  length (snd (sample_ S false h vsz vidx e (seed, col, alpha, log)))
  = (length log + (if Rlt_dec (drawn_rangle_ h vsz vidx seed) rmax then 1 else 0))%nat.
Proof.
  unfold sample, drawn_rangle. destruct (jitter_offset2f seed) as [seed' jxy]; simpl.
  destruct (Rlt_dec _ _).
  - destruct (sample_ray _ _ _ _ _ _ _) as [[sd o] d]. simpl. rewrite length_app. reflexivity.
  - simpl. lia.
Qed.

Lemma sample_loop_length_nodof (S : bool) h vsz vidx e n seed col alpha log :
  length (snd (sample_loop_ S false h vsz vidx e n (seed, col, alpha, log)))
  = (length log + in_fov_count jitter_offset2f h vsz vidx n seed)%nat.
Proof.
  revert seed col alpha log; induction n as [| n IH]; intros seed col alpha log;
    cbn [sample_loop in_fov_count]; [simpl; lia |].
  pose proof (sample_length_nodof S h vsz vidx e seed col alpha log) as L1.
  pose proof (sample_seed_nodof S h vsz vidx e seed col alpha log) as S1.
  destruct (sample_ S false h vsz vidx e (seed, col, alpha, log)) as [[[s1 c1] a1] l1].
  simpl in L1, S1. subst s1. rewrite IH, L1. lia.
Qed.

(** X: with DOF off, the number of rays traced is exactly the number of the
    [aa_samples] successive jitter draws from the pixel seed whose sample
    falls inside the FoV. *)
Theorem nodof_trace_count (S : bool) (h : host) :
  length (kernel S false h) =
  Datatypes.S (in_fov_count jitter_offset2f h
                 (fst (fst (viewport_setup S h))) (snd (fst (viewport_setup S h)))
                 (Z.to_nat (aa_samples h))
                 (pixel_seed (launch_dim_x h) (launch_index_x h) (launch_index_y h)
                             (subframe_count h))).
Proof.
  unfold camera_dome_general.
  destruct (viewport_setup S h) as [[vsz vidx] e]; simpl.
  pose proof (sample_loop_length_nodof S h vsz vidx e (Z.to_nat (aa_samples h))
                (pixel_seed (launch_dim_x h) (launch_index_x h) (launch_index_y h)
                            (subframe_count h)) zero3 0 []) as L.
  destruct (sample_loop_ _ _ _ _ _ _ _ _) as [[[sd col] alpha] log].
  simpl in L. rewrite length_app, L. simpl. lia.
Qed.

Lemma sample_unit_forward (S : bool) h vsz vidx e st :
  orthonormal (cam_U h) (cam_V h) (cam_W h) ->
  Forall (unit_forward h) (snd st) ->
  Forall (unit_forward h) (snd (sample_ S false h vsz vidx e st)).
Proof.
  intros Ho F. destruct st as [[[seed col] alpha] log]; simpl in F.
  unfold sample. destruct (jitter_offset2f seed) as [seed' jxy].
  set (rd := sample_rd h vsz vidx jxy).
  destruct (Rlt_dec (rangle_of rd) rmax) as [Hlt | _]; [| exact F].
  unfold sample_ray.
  destruct (Req_dec_T (rangle_of rd) 0) as [H0 | Hn].
  - simpl. apply Forall_app; split; [exact F |].
    destruct Ho as (_ & _ & HWW & _). repeat constructor; simpl; lra.
  - assert (Hr : 0 < rangle_of rd) by (pose proof (rangle_of_nonneg rd); lra).
    pose proof (dome_frame _ _ _ rd Ho Hr) as Fr.
    destruct (dome_dir_components _ _ _ rd Ho) as (Co & _ & _).
    assert (Hc : 0 < cos (rangle_of rd)).
    { rewrite rmax_half_pi in Hlt. apply cos_gt_0; lra. }
    destruct (dome_dirs _ _ _ _) as [[d u] rt] eqn:Ed.
    simpl in Co, Fr. simpl.
    apply Forall_app; split; [exact F |].
    repeat constructor; simpl; [apply Fr | rewrite Co; exact Hc].
Qed.

Lemma sample_loop_unit_forward (S : bool) h vsz vidx e n st :
  orthonormal (cam_U h) (cam_V h) (cam_W h) ->
  Forall (unit_forward h) (snd st) ->
  Forall (unit_forward h) (snd (sample_loop_ S false h vsz vidx e n st)).
Proof.
  intros Ho. revert st; induction n as [| n IH]; intros st F; cbn [sample_loop]; [exact F |].
  apply IH, sample_unit_forward; assumption.
Qed.

(** X: with DOF off and an orthonormal camera basis, every traced ray has a
    unit direction with a positive component along the forward axis
    [cam_W] (it points into the dome's hemisphere). *)
Theorem nodof_traced_directions_unit_forward (S : bool) (h : host) :
  orthonormal (cam_U h) (cam_V h) (cam_W h) ->
  Forall (fun ev => match ev with
                    | Trace _ d => dot d d = 1 /\ 0 < dot d (cam_W h)
                    | Accumulate _ _ => True
                    end) (kernel S false h).
Proof.
  intro Ho. change (Forall (unit_forward h) (kernel S false h)).
  unfold camera_dome_general.
  destruct (viewport_setup S h) as [[vsz vidx] e].
  pose proof (sample_loop_unit_forward S h vsz vidx e (Z.to_nat (aa_samples h))
                (pixel_seed (launch_dim_x h) (launch_index_x h) (launch_index_y h)
                            (subframe_count h), zero3, 0, []) Ho ltac:(constructor)) as F.
  destruct (sample_loop_ _ _ _ _ _ _ _ _) as [[[sd col] alpha] log].
  simpl in F. apply Forall_app; split; [exact F | repeat constructor].
Qed.

(** X: in stereo mode, for a frame of height 2H, the right-eye pixel (x, y)
    and the left-eye pixel (x, y + H) use the same viewport size and row and
    opposite eye shifts, so a jitter gives them the same [rd]; with DOF off
    their rays have the same direction and origins symmetric about
    [cam_pos]. *)
Theorem stereo_eye_pair_symmetric (h : host) (H y seed : Z) (jxy : float2) :
  (0 <= y < H)%Z -> launch_dim_y h = (2 * H)%Z ->
  let hr := set_launch_index_y h y in
  let hl := set_launch_index_y h (y + H) in
  fst (viewport_setup true hl) = fst (viewport_setup true hr) /\
  snd (viewport_setup true hl) = - snd (viewport_setup true hr) /\
  sample_rd hl (fst (fst (viewport_setup true hl))) (snd (fst (viewport_setup true hl))) jxy
  = sample_rd hr (fst (fst (viewport_setup true hr))) (snd (fst (viewport_setup true hr))) jxy /\
  (forall rd : float2,
    snd (sample_ray dof_ray true false hl (snd (viewport_setup true hl)) seed rd)
    = snd (sample_ray dof_ray true false hr (snd (viewport_setup true hr)) seed rd) /\
    f3add (snd (fst (sample_ray dof_ray true false hl (snd (viewport_setup true hl)) seed rd)))
          (snd (fst (sample_ray dof_ray true false hr (snd (viewport_setup true hr)) seed rd)))
    = f3scale 2 (cam_pos h)).
Proof.
  intros Hy Hdim hr hl.
  destruct (stereo_rows h H y Hy Hdim) as [Er El].
  fold hr in Er. fold hl in El. rewrite Er, El. simpl.
  split; [reflexivity |]. split; [rewrite neg_half_eq, half_eq; ring |].
  split; [reflexivity |].
  intro rd. unfold sample_ray, hr, hl. cbn [set_launch_index_y cam_U cam_V cam_W cam_pos].
  destruct (Req_dec_T (rangle_of rd) 0).
  - simpl. split; [reflexivity |].
    destruct (cam_pos h); unfold f3add, f3scale; simpl. f_equal; ring.
  - destruct (dome_dirs (cam_U h) (cam_V h) (cam_W h) rd) as [[d u] rt].
    simpl. split; [reflexivity |].
    rewrite neg_half_eq, half_eq.
    destruct (cam_pos h); unfold f3add, f3scale; simpl. f_equal; ring.
Qed.

Lemma sample_zero_shift_origin (S : bool) h vsz vidx st :
  Forall (origin_is_cam_pos h) (snd st) ->
  Forall (origin_is_cam_pos h) (snd (sample_ S false h vsz vidx 0 st)).
Proof.
  destruct st as [[[seed col] alpha] log]; simpl; intro F. unfold sample.
  destruct (jitter_offset2f seed) as [seed' jxy].
  destruct (Rlt_dec _ _); [| exact F].
  unfold sample_ray.
  destruct (Req_dec_T _ _).
  - simpl. apply Forall_app; split; [exact F | repeat constructor].
  - destruct (dome_dirs _ _ _ _) as [[d u] rt]. simpl.
    apply Forall_app; split; [exact F |].
    repeat constructor. simpl. destruct S; [apply f3add_scale0 | reflexivity].
Qed.

Lemma sample_loop_zero_shift_origin (S : bool) h vsz vidx n st :
  Forall (origin_is_cam_pos h) (snd st) ->
  Forall (origin_is_cam_pos h) (snd (sample_loop_ S false h vsz vidx 0 n st)).
Proof.
  revert st; induction n as [| n IH]; intros st F; cbn [sample_loop]; [exact F |].
  apply IH, sample_zero_shift_origin, F.
Qed.

(** X: in the stereo variant without DOF, an eye separation of 0 makes both
    eye shifts 0, and every traced ray starts at [cam_pos]. *)
Theorem stereo_zero_eyesep_origin (h : host) :
  cam_stereo_eyesep h = 0 ->
  Forall (fun ev => match ev with Trace o _ => o = cam_pos h | Accumulate _ _ => True end)
         (camera_dome_master_stereo jitter_offset2f dof_ray rtTrace h).
Proof.
  intro H0. change (Forall (origin_is_cam_pos h) (kernel true false h)).
  unfold camera_dome_general.
  destruct (viewport_setup true h) as [[vsz vidx] e] eqn:Ev.
  assert (He : e = 0).
  { unfold viewport_setup in Ev. rewrite H0 in Ev.
    destruct (Z.geb _ _); injection Ev as _ _ Ee; subst e; ring. }
  subst e.
  pose proof (sample_loop_zero_shift_origin true h vsz vidx (Z.to_nat (aa_samples h))
                (pixel_seed (launch_dim_x h) (launch_index_x h) (launch_index_y h)
                            (subframe_count h), zero3, 0, []) ltac:(constructor)) as F.
  destruct (sample_loop_ _ _ _ _ _ _ _ _) as [[[sd col] alpha] log].
  simpl in F. apply Forall_app; split; [exact F | repeat constructor].
Qed.

End Proofs.

(** X: in stereo mode with an odd frame height 2H + 1, the half height is
    H and the top row y = 2H is rendered as a left-eye row with local
    y = H, one row past the H rows [0, H) of each eye's viewport. *)
Theorem stereo_odd_height_top_row (h : host) (H : Z) :
  (0 <= H)%Z -> launch_dim_y h = (2 * H + 1)%Z -> launch_index_y h = (2 * H)%Z ->
  viewport_setup true h = (H, H, -0.5 * cam_stereo_eyesep h).
Proof.
  intros HH Hdim Hy. unfold viewport_setup. rewrite Hdim, Hy.
  assert (Hs : Z.shiftr (2 * H + 1) 1 = H).
  { rewrite Z.shiftr_div_pow2 by lia. change (2 ^ 1)%Z with 2%Z.
    symmetry. apply (Z.div_unique _ _ _ 1); lia. }
  rewrite Hs. destruct (Z.geb_spec (2 * H) H); [| lia].
  replace (2 * H - H)%Z with H by lia. reflexivity.
Qed.

(** X: off the dome center, the ray direction and the two lens vectors of
    lines 94-96 handed to [dof_ray] form an orthonormal frame for an
    orthonormal camera basis, and the lens "right" vector is orthogonal to
    the forward axis. *)
Theorem dof_lens_basis_orthonormal (U V W : float3) (rd : float2) :
  orthonormal U V W -> 0 < rangle_of rd ->
  let '(d, up, rt) := dome_dirs U V W rd in
  dot d d = 1 /\ dot up up = 1 /\ dot rt rt = 1 /\
  dot d up = 0 /\ dot d rt = 0 /\ dot up rt = 0 /\ dot rt W = 0.
Proof. intros Ho Hr. exact (dome_frame U V W rd Ho Hr). Qed.

(** ** Radial symmetry of the fisheye mapping (C6) *)

(** C6: for an orthonormal camera basis and two in-FoV offsets of equal
    norm r > 0, both directions make the angle r with the forward axis
    (dot product with W is cos r), and each direction's (U, V) components
    are a positive multiple of its rd: same azimuth as rd. *)
Theorem fisheye_radially_symmetric (U V W : float3) (rd1 rd2 : float2) :
  orthonormal U V W ->
  rangle_of rd1 = rangle_of rd2 -> 0 < rangle_of rd1 < rmax ->
  dot (fst (fst (dome_dirs U V W rd1))) W = cos (rangle_of rd1) /\
  dot (fst (fst (dome_dirs U V W rd2))) W = cos (rangle_of rd1) /\
  (exists k, 0 < k /\ dot (fst (fst (dome_dirs U V W rd1))) U = k * fx rd1
                   /\ dot (fst (fst (dome_dirs U V W rd1))) V = k * fy rd1) /\
  (exists k, 0 < k /\ dot (fst (fst (dome_dirs U V W rd2))) U = k * fx rd2
                   /\ dot (fst (fst (dome_dirs U V W rd2))) V = k * fy rd2).
Proof.
  intros Ho Heq Hr.
  destruct (dome_dir_components U V W rd1 Ho) as (W1 & U1 & V1).
  destruct (dome_dir_components U V W rd2 Ho) as (W2 & U2 & V2).
  assert (Hr2 : 0 < rangle_of rd2 < rmax) by (rewrite <- Heq; exact Hr).
  split; [exact W1 |]. split; [rewrite W2, Heq; reflexivity |]. split.
  - exists (sin (rangle_of rd1) / rangle_of rd1). split; [apply sin_over_pos, Hr | auto].
  - exists (sin (rangle_of rd2) / rangle_of rd2). split; [apply sin_over_pos, Hr2 | auto].
Qed.

(** ** The worked example (C3) *)

(** C3 (amended): in the worked example, the sample of pixel (0,0) with
    jitter (jx, jy) is excluded exactly when (jx-1)^2 + (jy-1)^2 >= 1, i.e.
    when the jittered point is at least one pixel away from the optical
    center (1,1); the un-jittered corner (jitter (0,0)) is excluded. *)
Theorem worked_example_exclusion (jx jy : R) :
  viewport_setup false example_host = (2%Z, 0%Z, 0) /\
  (rmax <= rangle_of (sample_rd example_host 2 0 (mkf2 jx jy))
   <-> 1 <= (jx - 1) ^ 2 + (jy - 1) ^ 2) /\
  rmax < rangle_of (sample_rd example_host 2 0 (mkf2 0 0)).
Proof.
  split; [reflexivity |]. split; [apply example_excluded_iff |].
  rewrite example_rd, rmax_half_pi. unfold rangle_of, hypotf; simpl.
  assert (HP : 0 < PI / 2) by (generalize PI_RGT_0; lra).
  set (P := PI / 2) in *.
  destruct (Rlt_or_le P (sqrt ((0 - 1) * P * ((0 - 1) * P) + (0 - 1) * P * ((0 - 1) * P))))
    as [Hlt | Hle]; [exact Hlt | exfalso].
  assert (Hs : sqrt ((0 - 1) * P * ((0 - 1) * P) + (0 - 1) * P * ((0 - 1) * P))
               = P * sqrt 2).
  { replace ((0 - 1) * P * ((0 - 1) * P) + (0 - 1) * P * ((0 - 1) * P)) with (P * P * 2) by ring.
    rewrite sqrt_mult by nra. rewrite sqrt_square by lra. reflexivity. }
  rewrite Hs in Hle.
  assert (1 < sqrt 2).
  { rewrite <- sqrt_1. apply sqrt_lt_1_alt. lra. }
  nra.
Qed.

(** C3, as stated, fails: a jitter of (1/2, 1/2) puts the sample of pixel
    (0,0) inside the FoV, so it is traced and the pixel is not black. *)
Lemma worked_example_claim_fails :
  ~ (forall (jitter : Z -> Z * float2) dof trace,
       (forall s, 0 <= fx (snd (jitter s)) < 1 /\ 0 <= fy (snd (jitter s)) < 1) ->
       camera_dome_master jitter dof trace example_host = [Accumulate zero3 0]).
Proof.
  intro Hc.
  specialize (Hc (fun s => (s, mkf2 0.5 0.5)) (fun o d s u r => (s, o, d))
                 (fun o d prd => prd)).
  assert (Hb : forall s : Z, 0 <= fx (snd (s, mkf2 0.5 0.5)) < 1
                           /\ 0 <= fy (snd (s, mkf2 0.5 0.5)) < 1).
  { intros; simpl; rewrite half_eq; lra. }
  specialize (Hc Hb).
  unfold camera_dome_master, camera_dome_general in Hc.
  rewrite viewport_setup_mono in Hc. simpl in Hc.
  unfold sample in Hc.
  destruct (Rlt_dec _ _) as [_ | Hn].
  - destruct (sample_ray _ _ _ _ _ _ _) as [[? ?] ?]. discriminate Hc.
  - apply Hn. apply Rnot_le_lt. rewrite example_excluded_iff, half_eq. lra.
Qed.


(** ** Stereo partition (C1) *)

(** C1, as stated (lower half: -sep/2, upper half: +sep/2), fails: with a
    frame of height 2 and eye separation 1, row 0 gets eye shift +1/2. *)
Lemma stereo_eyeshift_claim_fails :
  ~ (forall (h : host) (H : Z),
       launch_dim_y h = (2 * H)%Z -> (0 <= launch_index_y h < 2 * H)%Z ->
       ((launch_index_y h < H)%Z ->
        viewport_setup true h = (H, launch_index_y h, -0.5 * cam_stereo_eyesep h)) /\
       ((H <= launch_index_y h)%Z ->
        viewport_setup true h = (H, (launch_index_y h - H)%Z, 0.5 * cam_stereo_eyesep h))).
Proof.
  intro Hc.
  destruct (Hc (mkHost 2 2 0 0 zero3 zero3 zero3 zero3 1 1 0 0) 1%Z eq_refl ltac:(simpl; lia))
    as [Hlow _].
  specialize (Hlow ltac:(simpl; lia)).
  vm_compute in Hlow. injection Hlow as E.
  unfold Q2R in E; simpl in E. lra.
Qed.

(** C1 (amended): with stereo on and a frame of height 2H, the rows y < H
    (lower half, right eye) keep their y and get eye shift +sep/2; the rows
    y >= H (upper half, left eye) get local y = y - H and eye shift -sep/2;
    both halves map onto the rows 0..H-1 of an H-high viewport. *)
Theorem stereo_viewport_partition (h : host) (H : Z) :
  (0 <= H)%Z -> launch_dim_y h = (2 * H)%Z -> (0 <= launch_index_y h < 2 * H)%Z ->
  let '(vsz, vidx, eyeshift) := viewport_setup true h in
  vsz = H /\ (0 <= vidx < H)%Z /\
  ((launch_index_y h < H)%Z -> vidx = launch_index_y h /\ eyeshift = 0.5 * cam_stereo_eyesep h) /\
  ((H <= launch_index_y h)%Z ->
   vidx = (launch_index_y h - H)%Z /\ eyeshift = -0.5 * cam_stereo_eyesep h).
Proof.
  intros HH Hdim Hidx. unfold viewport_setup.
  assert (Hsz : Z.shiftr (launch_dim_y h) 1 = H).
  { rewrite Hdim, Z.shiftr_div_pow2 by lia.
    replace (2 ^ 1)%Z with 2%Z by reflexivity.
    rewrite Z.mul_comm. apply Z.div_mul. lia. }
  rewrite Hsz.
  destruct (Z.geb_spec (launch_index_y h) H) as [Hge | Hlt].
  - repeat split; try lia.
  - repeat split; lia.
Qed.

(** ** The seed hash (C8) *)

(** C8, as stated, fails: the 4-round hash is not injective in the frame
    counter; at linear pixel index 0 the counters 58703 and 60459 give the
    same seed. *)
Lemma tea_seed_counter_collision :
  ~ (forall w x y f1 f2 : Z,
       (0 <= f1 < 2 ^ 32)%Z -> (0 <= f2 < 2 ^ 32)%Z -> f1 <> f2 ->
       pixel_seed w x y f1 <> pixel_seed w x y f2).
Proof.
  intro Hc. apply (Hc 1%Z 0%Z 0%Z 58703%Z 60459%Z); try lia.
  vm_compute. reflexivity.
Qed.

(** ** Witnesses *)

Lemma stereo_viewport_partition_witness :
  ((0 <= 2)%Z /\ launch_dim_y stereo_host = (2 * 2)%Z
   /\ (0 <= launch_index_y stereo_host < 2 * 2)%Z) /\
  (let '(vsz, vidx, eyeshift) := viewport_setup true stereo_host in
   vsz = 2%Z /\ (0 <= vidx < 2)%Z /\
   ((launch_index_y stereo_host < 2)%Z ->
    vidx = launch_index_y stereo_host /\ eyeshift = 0.5 * cam_stereo_eyesep stereo_host) /\
   ((2 <= launch_index_y stereo_host)%Z ->
    vidx = (launch_index_y stereo_host - 2)%Z
    /\ eyeshift = -0.5 * cam_stereo_eyesep stereo_host)).
Proof.
  split.
  - simpl. repeat split; lia.
  - apply (stereo_viewport_partition stereo_host 2); simpl; lia.
Defined.

Lemma sample_outside_fov_contributes_nothing_witness :
  rmax <= drawn_rangle (const_jitter (mkf2 0 0)) example_host 2 0 7 /\
  (rmax = PI / 2 /\
   sample (const_jitter (mkf2 0 0)) no_dof opaque_trace true true example_host 2 0 0
     (7%Z, zero3, 0, []) = (7%Z, zero3, 0, [])).
Proof.
  assert (H : rmax <= drawn_rangle (const_jitter (mkf2 0 0)) example_host 2 0 7).
  { unfold drawn_rangle, const_jitter; simpl.
    apply example_excluded_iff. lra. }
  split; [exact H |].
  exact (sample_outside_fov_contributes_nothing (const_jitter (mkf2 0 0)) no_dof opaque_trace
           true true example_host 2 0 0 7 zero3 0 [] H).
Defined.

Lemma sample_center_forward_witness :
  drawn_rangle (const_jitter (mkf2 0 0)) center_host 2 1 5 = 0 /\
  sample (const_jitter (mkf2 0 0)) no_dof opaque_trace true true center_host 2 1 1
    (5%Z, zero3, 0, [])
  = (5%Z, f3add zero3 zero3, 0 + 1, [Trace (mkf3 0 0 0) (mkf3 0 0 1)]).
Proof.
  assert (H : drawn_rangle (const_jitter (mkf2 0 0)) center_host 2 1 5 = 0).
  { unfold drawn_rangle, const_jitter, rangle_of, hypotf. rewrite sample_rd_eq; simpl.
    replace (IZR 1 + 0 - IZR 2 / 2) with 0 by lra.
    rewrite !Rmult_0_l, Rplus_0_l. apply sqrt_0. }
  split; [exact H |].
  exact (sample_center_forward (const_jitter (mkf2 0 0)) no_dof opaque_trace
           true true center_host 2 1 1 5 zero3 0 [] H).
Defined.

Lemma sample_fisheye_direction_witness :
  let h := example_host in
  let jxy := mkf2 0.5 0.5 in
  let rdx := (IZR (launch_index_x h) + fx jxy - IZR (launch_dim_x h) / 2)
             * ((PI / 180) * 180 / IZR (launch_dim_x h)) in
  let rdy := (IZR 0 + fy jxy - IZR 2 / 2) * ((PI / 180) * 180 / IZR 2) in
  let r := sqrt (rdx * rdx + rdy * rdy) in
  let dir := f3add (f3add (f3scale (sin r * rdx / r) (cam_U h))
                          (f3scale (sin r * rdy / r) (cam_V h)))
                   (f3scale (cos r) (cam_W h)) in
  (0 < r /\ r < rmax) /\
  (fst (fst (dome_dirs (cam_U h) (cam_V h) (cam_W h) (sample_rd h 2 0 jxy))) = dir /\
   exists col' alpha' o,
     sample (const_jitter jxy) no_dof opaque_trace false false h 2 0 0 (3%Z, zero3, 0, [])
     = (3%Z, col', alpha', [] ++ [Trace o dir])).
Proof.
  intros h jxy rdx rdy r dir.
  assert (Hr : r = rangle_of (sample_rd example_host 2 0 (mkf2 0.5 0.5))).
  { rewrite sample_rd_eq. reflexivity. }
  assert (Hlt : r < rmax).
  { rewrite Hr. apply Rnot_le_lt. rewrite example_excluded_iff, half_eq. lra. }
  assert (Hpos : 0 < r).
  { unfold r, rdx, rdy; simpl. rewrite half_eq. apply sqrt_lt_R0.
    assert (0 < PI / 180 * 180 / 2) by (generalize PI_RGT_0; intro; unfold Rdiv; nra).
    nra. }
  split; [split; assumption |].
  exact (sample_fisheye_direction (const_jitter jxy) no_dof opaque_trace
           false example_host 2 0 0 3 zero3 0 [] 3 jxy eq_refl Hpos Hlt).
Defined.

Lemma kernel_depends_on_counter_via_seed_witness :
  let h := mkHost 1 1 0 0 zero3 zero3 zero3 (mkf3 0 0 1) 0 4 0 60459 in
  pixel_seed 1 0 0 58703 = pixel_seed 1 0 0 60459 /\
  camera_dome_general (const_jitter (mkf2 0.5 0.5)) no_dof opaque_trace false true
    (set_subframe_count h 58703)
  = camera_dome_general (const_jitter (mkf2 0.5 0.5)) no_dof opaque_trace false true h.
Proof.
  intro h.
  assert (Hs : pixel_seed 1 0 0 58703 = pixel_seed 1 0 0 60459) by (vm_compute; reflexivity).
  split; [exact Hs |].
  exact (kernel_depends_on_counter_via_seed (const_jitter (mkf2 0.5 0.5)) no_dof opaque_trace
           false true h 58703 Hs).
Defined.

Lemma kernel_accumulates_once_witness :
  (forall k, (k < Z.to_nat (aa_samples example_host))%nat ->
     rmax <= drawn_rangle (const_jitter (mkf2 0 0)) example_host 2 0
               (jitter_seed_iter (const_jitter (mkf2 0 0)) k
                  (pixel_seed 2 0 0 0))) /\
  camera_dome_master (const_jitter (mkf2 0 0)) no_dof opaque_trace example_host
  = [Accumulate zero3 0].
Proof.
  assert (Hout : forall k, (k < Z.to_nat (aa_samples example_host))%nat ->
     rmax <= drawn_rangle (const_jitter (mkf2 0 0)) example_host 2 0
               (jitter_seed_iter (const_jitter (mkf2 0 0)) k (pixel_seed 2 0 0 0))).
  { intros k _. unfold drawn_rangle, const_jitter; simpl.
    apply example_excluded_iff. lra. }
  split; [exact Hout |].
  exact (proj2 (kernel_accumulates_once (const_jitter (mkf2 0 0)) no_dof opaque_trace
                  false false example_host) Hout).
Defined.

Lemma fisheye_radially_symmetric_witness :
  (orthonormal (mkf3 1 0 0) (mkf3 0 1 0) (mkf3 0 0 1) /\
   rangle_of (mkf2 1 0) = rangle_of (mkf2 0 1) /\ 0 < rangle_of (mkf2 1 0) < rmax) /\
  (dot (fst (fst (dome_dirs (mkf3 1 0 0) (mkf3 0 1 0) (mkf3 0 0 1) (mkf2 1 0)))) (mkf3 0 0 1)
   = cos (rangle_of (mkf2 1 0)) /\
   dot (fst (fst (dome_dirs (mkf3 1 0 0) (mkf3 0 1 0) (mkf3 0 0 1) (mkf2 0 1)))) (mkf3 0 0 1)
   = cos (rangle_of (mkf2 1 0)) /\
   (exists k, 0 < k
      /\ dot (fst (fst (dome_dirs (mkf3 1 0 0) (mkf3 0 1 0) (mkf3 0 0 1) (mkf2 1 0)))) (mkf3 1 0 0)
         = k * fx (mkf2 1 0)
      /\ dot (fst (fst (dome_dirs (mkf3 1 0 0) (mkf3 0 1 0) (mkf3 0 0 1) (mkf2 1 0)))) (mkf3 0 1 0)
         = k * fy (mkf2 1 0)) /\
   (exists k, 0 < k
      /\ dot (fst (fst (dome_dirs (mkf3 1 0 0) (mkf3 0 1 0) (mkf3 0 0 1) (mkf2 0 1)))) (mkf3 1 0 0)
         = k * fx (mkf2 0 1)
      /\ dot (fst (fst (dome_dirs (mkf3 1 0 0) (mkf3 0 1 0) (mkf3 0 0 1) (mkf2 0 1)))) (mkf3 0 1 0)
         = k * fy (mkf2 0 1))).
Proof.
  assert (Ho : orthonormal (mkf3 1 0 0) (mkf3 0 1 0) (mkf3 0 0 1)).
  { unfold orthonormal, dot; simpl. repeat split; ring. }
  assert (H1 : rangle_of (mkf2 1 0) = 1).
  { unfold rangle_of, hypotf; simpl. replace (1 * 1 + 0 * 0) with 1 by ring. apply sqrt_1. }
  assert (H2 : rangle_of (mkf2 0 1) = 1).
  { unfold rangle_of, hypotf; simpl. replace (0 * 0 + 1 * 1) with 1 by ring. apply sqrt_1. }
  assert (Heq : rangle_of (mkf2 1 0) = rangle_of (mkf2 0 1)) by (rewrite H1, H2; reflexivity).
  assert (Hr : 0 < rangle_of (mkf2 1 0) < rmax).
  { rewrite H1, rmax_half_pi. generalize PI2_1. lra. }
  split; [split; [exact Ho | split; [exact Heq | exact Hr]] |].
  exact (fisheye_radially_symmetric _ _ _ _ _ Ho Heq Hr).
Defined.

Lemma kernel_no_samples_witness :
  (aa_samples (mkHost 2 2 0 0 zero3 zero3 zero3 zero3 0 0 0 0) <= 0)%Z /\
  camera_dome_master_stereo_dof (const_jitter (mkf2 0.5 0.5)) no_dof opaque_trace
    (mkHost 2 2 0 0 zero3 zero3 zero3 zero3 0 0 0 0) = [Accumulate zero3 0].
Proof.
  assert (H : (aa_samples (mkHost 2 2 0 0 zero3 zero3 zero3 zero3 0 0 0 0) <= 0)%Z)
    by (simpl; lia).
  split; [exact H |].
  exact (kernel_no_samples (const_jitter (mkf2 0.5 0.5)) no_dof opaque_trace true true _ H).
Defined.

Lemma nodof_traced_directions_unit_forward_witness :
  orthonormal (cam_U example_host) (cam_V example_host) (cam_W example_host) /\
  Forall (fun ev => match ev with
                    | Trace _ d => dot d d = 1 /\ 0 < dot d (cam_W example_host)
                    | Accumulate _ _ => True
                    end)
         (camera_dome_general (const_jitter (mkf2 0.5 0.5)) no_dof opaque_trace
            false false example_host).
Proof.
  assert (Ho : orthonormal (cam_U example_host) (cam_V example_host) (cam_W example_host)).
  { unfold orthonormal, dot; simpl. repeat split; ring. }
  split; [exact Ho |].
  exact (nodof_traced_directions_unit_forward (const_jitter (mkf2 0.5 0.5)) no_dof
           opaque_trace false example_host Ho).
Defined.

Lemma stereo_eye_pair_symmetric_witness :
  ((0 <= 1 < 2)%Z /\ launch_dim_y stereo_host = (2 * 2)%Z) /\
  (let hr := set_launch_index_y stereo_host 1 in
   let hl := set_launch_index_y stereo_host (1 + 2) in
   fst (viewport_setup true hl) = fst (viewport_setup true hr) /\
   snd (viewport_setup true hl) = - snd (viewport_setup true hr) /\
   sample_rd hl (fst (fst (viewport_setup true hl))) (snd (fst (viewport_setup true hl)))
     (mkf2 0 0)
   = sample_rd hr (fst (fst (viewport_setup true hr))) (snd (fst (viewport_setup true hr)))
       (mkf2 0 0) /\
   (forall rd : float2,
     snd (sample_ray no_dof true false hl (snd (viewport_setup true hl)) 0 rd)
     = snd (sample_ray no_dof true false hr (snd (viewport_setup true hr)) 0 rd) /\
     f3add (snd (fst (sample_ray no_dof true false hl (snd (viewport_setup true hl)) 0 rd)))
           (snd (fst (sample_ray no_dof true false hr (snd (viewport_setup true hr)) 0 rd)))
     = f3scale 2 (cam_pos stereo_host))).
Proof.
  assert (Hy : (0 <= 1 < 2)%Z) by lia.
  assert (Hd : launch_dim_y stereo_host = (2 * 2)%Z) by reflexivity.
  split; [split; assumption |].
  exact (stereo_eye_pair_symmetric no_dof stereo_host 2 1 0 (mkf2 0 0) Hy Hd).
Defined.

Lemma stereo_zero_eyesep_origin_witness :
  cam_stereo_eyesep example_host = 0 /\
  Forall (fun ev => match ev with
                    | Trace o _ => o = cam_pos example_host
                    | Accumulate _ _ => True
                    end)
         (camera_dome_master_stereo (const_jitter (mkf2 0.5 0.5)) no_dof opaque_trace
            example_host).
Proof.
  assert (H : cam_stereo_eyesep example_host = 0) by reflexivity.
  split; [exact H |].
  exact (stereo_zero_eyesep_origin (const_jitter (mkf2 0.5 0.5)) no_dof opaque_trace
           example_host H).
Defined.

Lemma stereo_odd_height_top_row_witness :
  ((0 <= 2)%Z /\ launch_dim_y (mkHost 2 5 0 4 zero3 zero3 zero3 zero3 1 1 0 0) = (2 * 2 + 1)%Z
   /\ launch_index_y (mkHost 2 5 0 4 zero3 zero3 zero3 zero3 1 1 0 0) = (2 * 2)%Z) /\
  viewport_setup true (mkHost 2 5 0 4 zero3 zero3 zero3 zero3 1 1 0 0)
  = (2%Z, 2%Z, -0.5 * 1).
Proof.
  split; [repeat split; simpl; lia |].
  exact (stereo_odd_height_top_row (mkHost 2 5 0 4 zero3 zero3 zero3 zero3 1 1 0 0) 2
           ltac:(lia) eq_refl eq_refl).
Defined.

Lemma dof_lens_basis_orthonormal_witness :
  (orthonormal (mkf3 1 0 0) (mkf3 0 1 0) (mkf3 0 0 1) /\ 0 < rangle_of (mkf2 1 0)) /\
  (let '(d, up, rt) := dome_dirs (mkf3 1 0 0) (mkf3 0 1 0) (mkf3 0 0 1) (mkf2 1 0) in
   dot d d = 1 /\ dot up up = 1 /\ dot rt rt = 1 /\
   dot d up = 0 /\ dot d rt = 0 /\ dot up rt = 0 /\ dot rt (mkf3 0 0 1) = 0).
Proof.
  assert (Ho : orthonormal (mkf3 1 0 0) (mkf3 0 1 0) (mkf3 0 0 1)).
  { unfold orthonormal, dot; simpl. repeat split; ring. }
  assert (Hr : 0 < rangle_of (mkf2 1 0)).
  { unfold rangle_of, hypotf; simpl. replace (1 * 1 + 0 * 0) with 1 by ring.
    rewrite sqrt_1. lra. }
  split; [split; assumption |].
  exact (dof_lens_basis_orthonormal _ _ _ _ Ho Hr).
Defined.
